(** * Habit tracker backend (backend/main.py): model and verified properties

    The FastAPI handlers of [backend/main.py] are embedded as functions over
    an explicit database session.  The two tables of the schema are finite
    maps from the primary key [id] to the remaining columns of a row, the
    handlers run in a small state-and-exception monad, and the streak
    computation is the loop of [calculate_streak] over the result of its
    query. *)

From Stdlib Require Import ZArith Lia.
From stdpp Require Import gmap strings list fin_maps sorting.

Open Scope Z_scope.

(** ** Dates

    A [datetime.date] is modelled by its day number (the proleptic Gregorian
    ordinal), so that [d - timedelta(days=1)] is [d - 1].  The finite range of
    [datetime.date] (years 1 to 9999) is not part of the model. *)

Abbreviation date := Z.

Definition timedelta (days : Z) : Z := days.

(** ** Tables (lines 31-47)

    A row is stored under its primary key: [Habit.id] and [Completion.id]
    are the keys of the maps [habits] and [completions] below. *)

Module Habit.
Record t : Type := mk {
  name : string;
  emoji : string;
  created_at : date
}.
End Habit.

Module Completion.
Record t : Type := mk {
  habit_id : Z;
  completed_date : date
}.
End Completion.

Record Session : Type := mkSession {
  habits : gmap Z Habit.t;
  completions : gmap Z Completion.t
}.

Definition empty_db : Session := mkSession ∅ ∅.

(** ** Exceptions and outcomes

    A handler either returns a value or raises.  [HTTPException] is raised by
    the handlers themselves; [RequestValidationError] is what FastAPI raises
    (and answers with status 422) when a request body does not fit the
    pydantic model of the handler's parameter, and it names the fields that
    do not fit; [OverflowError] is what the database driver raises when an
    integer that does not fit in 64 bits is bound to a query, and no handler
    catches it (status 500). *)

Inductive Exception : Type :=
  | HTTPException (status_code : Z) (detail : string)
  | RequestValidationError (fields : list string)
  | OverflowError.

Inductive Outcome (A : Type) : Type :=
  | Return (a : A)
  | Raise (e : Exception).
Arguments Return {A} a.
Arguments Raise {A} e.

(** ** Request and response models (lines 53-85) *)

Definition default_emoji : string := "⭐".

(** JSON values, as a request body carries them (a number is given by its
    integer value; no field below accepts a number of any kind). *)
#[local] Unset Elimination Schemes.
Inductive JSON : Type :=
  | JNull
  | JBool (b : bool)
  | JNumber (n : Z)
  | JString (s : string)
  | JArray (items : list JSON)
  | JObject (members : list (string * JSON)).
#[local] Set Elimination Schemes.

(** The JSON object sent to [POST /api/habits]: each of the two fields is
    absent or present with some value. *)
Record HabitCreateBody : Type := mkHabitCreateBody {
  body_name : option JSON;
  body_emoji : option JSON
}.

Module HabitCreate.
Record t : Type := mk {
  name : string;
  emoji : string
}.

(** Pydantic validation of the body against [name: str] (required; any
    string, the empty one too) and [emoji: str = "⭐"] (a string when present,
    the default when absent).  A field that is present with a value that is not
    a string, [null] included, does not fit. *)
Definition validate (body : HabitCreateBody) : Outcome t :=
  match body_name body, body_emoji body with
  | Some (JString name), None => Return (mk name default_emoji)
  | Some (JString name), Some (JString emoji) => Return (mk name emoji)
  | Some (JString _), Some _ => Raise (RequestValidationError ["emoji"])
  | _, (None | Some (JString _)) => Raise (RequestValidationError ["name"])
  | _, Some _ => Raise (RequestValidationError ["name"; "emoji"])
  end.
End HabitCreate.

Module HabitUpdate.
Record t : Type := mk {
  name : string;
  emoji : string
}.
End HabitUpdate.

Module HabitResponse.
Record t : Type := mk {
  id : Z;
  name : string;
  emoji : string;
  current_streak : Z;
  created_at : date
}.
End HabitResponse.

Module CompletionCreate.
Record t : Type := mk {
  habit_id : Z;
  completed_date : date
}.
End CompletionCreate.

Module CompletionResponse.
Record t : Type := mk {
  id : Z;
  habit_id : Z;
  completed_date : date
}.
End CompletionResponse.

(** ** calculate_streak (lines 96-116) *)

(** [order_by(Completion.completed_date.desc())]: later dates first. *)
Definition date_desc (c1 c2 : Completion.t) : Prop :=
  Completion.completed_date c2 ≤ Completion.completed_date c1.

Global Instance date_desc_dec : RelDecision date_desc.
Proof. intros c1 c2. unfold date_desc. apply _. Defined.

(** [db.query(Completion).filter(Completion.habit_id == habit_id)
       .order_by(Completion.completed_date.desc()).all()] *)
Definition query_completions (habit_id : Z) (db : Session) : list Completion.t :=
  merge_sort date_desc
    (filter (λ c, Completion.habit_id c = habit_id)
            (map_to_list (completions db)).*2).

(** The three branches of the loop body, lines 108-114. *)
Inductive Branch : Type := Counted | Skipped | Broke.

Definition loop_branch (completion : Completion.t) (current_date : date) : Branch :=
  if bool_decide (Completion.completed_date completion = current_date) then Counted
  else if bool_decide (Completion.completed_date completion = current_date) then Skipped
  else Broke.

(** The [for] loop of lines 107-114, with its two variables. *)
Fixpoint streak_loop (completions : list Completion.t)
    (streak : Z) (current_date : date) : Z :=
  match completions with
  | [] => streak
  | completion :: rest =>
      match loop_branch completion current_date with
      | Counted => streak_loop rest (streak + 1) (current_date - timedelta 1)
      | Skipped => streak_loop rest streak current_date
      | Broke => streak
      end
  end.

(** [today] stands for the value of [date.today()] during the call. *)
Definition calculate_streak (today : date) (habit_id : Z) (db : Session) : Z :=
  let completions := query_completions habit_id db in
  match completions with
  | [] => 0
  | _ => streak_loop completions 0 today
  end.

(** ** Handlers as state-and-exception computations *)

Definition Handler (A : Type) : Type := Session → Outcome A * Session.

Global Instance Handler_ret : MRet Handler := λ A a db, (Return a, db).

Global Instance Handler_bind : MBind Handler := λ A B f m db,
  match m db with
  | (Return a, db') => f a db'
  | (Raise e, db') => (Raise e, db')
  end.

Definition raise {A} (e : Exception) : Handler A := λ db, (Raise e, db).

(** A read-only query of the session. *)
Definition query {A} (q : Session → A) : Handler A := λ db, (Return (q db), db).

(** ** Session operations (SQLAlchemy) *)

(** The integers that the database stores and that a query can bind. *)
Definition int64 (n : Z) : Prop :=
  -9223372036854775808 ≤ n ≤ 9223372036854775807.

(** [db.query(T).filter(T.id == id).first()] on the table of [T].  The id is
    bound to the query, which raises [OverflowError] when it does not fit in
    64 bits.  The keys of a table do fit, so the bound can only be met by an
    id that is not stored. *)
Definition first_by_id {A} (table : Session → gmap Z A) (id : Z)
    : Handler (option A) := λ db,
  match table db !! id with
  | Some row => (Return (Some row), db)
  | None =>
      if bool_decide (int64 id) then (Return None, db)
      else (Raise OverflowError, db)
  end.

(** The key given to a new row: one more than the largest key in the table
    (an integer primary key without AUTOINCREMENT, as in SQLite), 1 in an
    empty table. *)
Definition next_id {A} (table : gmap Z A) : Z :=
  1 + foldr Z.max 0 (map_to_list table).*1.

(** [db.add(db_habit); db.commit(); db.refresh(db_habit)]: the row is
    inserted and its new [id] is read back. *)
Definition add_habit (db_habit : Habit.t) : Handler Z := λ db,
  let id := next_id (habits db) in
  (Return id, mkSession (<[id := db_habit]> (habits db)) (completions db)).

(** Assignment to the columns of a loaded row, then [db.commit()]. *)
Definition set_habit (id : Z) (db_habit : Habit.t) : Handler unit := λ db,
  (Return tt, mkSession (<[id := db_habit]> (habits db)) (completions db)).

(** [db.delete(db_habit); db.commit()].  The relationship
    [Habit.completions] is declared with [cascade="all, delete-orphan"]
    (line 38): the completions whose [habit_id] is the habit's id are deleted
    with it. *)
Definition delete_habit_row (id : Z) : Handler unit := λ db,
  (Return tt,
   mkSession (delete id (habits db))
             (filter (λ kc, Completion.habit_id kc.2 ≠ id) (completions db))).

Definition add_completion (db_completion : Completion.t) : Handler Z := λ db,
  let id := next_id (completions db) in
  (Return id, mkSession (habits db) (<[id := db_completion]> (completions db))).

Definition delete_completion_row (id : Z) : Handler unit := λ db,
  (Return tt, mkSession (habits db) (delete id (completions db))).

(** [db.query(Completion).filter(Completion.habit_id == habit_id,
       Completion.completed_date == completed_date).first()] *)
Definition query_existing (habit_id : Z) (completed_date : date) (db : Session)
    : option (Z * Completion.t) :=
  head (filter (λ kc, Completion.habit_id kc.2 = habit_id
                      ∧ Completion.completed_date kc.2 = completed_date)
               (map_to_list (completions db))).

(** ** Endpoints (lines 124-227) *)

Definition get_habits (today : date) : Handler (list HabitResponse.t) :=
  habits ← query (λ db, map_to_list (habits db));
  query (λ db,
    (λ habit : Z * Habit.t,
       HabitResponse.mk habit.1 (Habit.name habit.2) (Habit.emoji habit.2)
         (calculate_streak today habit.1 db) (Habit.created_at habit.2))
    <$> habits).

Definition create_habit (today : date) (habit : HabitCreate.t)
    : Handler HabitResponse.t :=
  let db_habit :=
    Habit.mk (HabitCreate.name habit) (HabitCreate.emoji habit) today in
  id ← add_habit db_habit;
  mret (HabitResponse.mk id (Habit.name db_habit) (Habit.emoji db_habit) 0
          (Habit.created_at db_habit)).

(** [POST /api/habits]: the body is validated, then the handler runs. *)
Definition post_habits (today : date) (body : HabitCreateBody)
    : Handler HabitResponse.t :=
  match HabitCreate.validate body with
  | Return habit => create_habit today habit
  | Raise e => raise e
  end.

Definition update_habit (today : date) (habit_id : Z) (habit : HabitUpdate.t)
    : Handler HabitResponse.t :=
  db_habit ← first_by_id habits habit_id;
  match db_habit with
  | None => raise (HTTPException 404 "Habit not found")
  | Some db_habit =>
      let db_habit :=
        Habit.mk (HabitUpdate.name habit) (HabitUpdate.emoji habit)
                 (Habit.created_at db_habit) in
      _ ← set_habit habit_id db_habit;
      streak ← query (calculate_streak today habit_id);
      mret (HabitResponse.mk habit_id (Habit.name db_habit)
              (Habit.emoji db_habit) streak (Habit.created_at db_habit))
  end.

Definition delete_habit (habit_id : Z) : Handler string :=
  db_habit ← first_by_id habits habit_id;
  match db_habit with
  | None => raise (HTTPException 404 "Habit not found")
  | Some _ =>
      _ ← delete_habit_row habit_id;
      mret "Habit deleted successfully"
  end.

Definition get_completions : Handler (list CompletionResponse.t) :=
  query (λ db,
    (λ c : Z * Completion.t,
       CompletionResponse.mk c.1 (Completion.habit_id c.2)
         (Completion.completed_date c.2))
    <$> map_to_list (completions db)).

Definition create_completion (completion : CompletionCreate.t)
    : Handler CompletionResponse.t :=
  habit ← first_by_id habits (CompletionCreate.habit_id completion);
  match habit with
  | None => raise (HTTPException 404 "Habit not found")
  | Some _ =>
      existing ← query (query_existing (CompletionCreate.habit_id completion)
                          (CompletionCreate.completed_date completion));
      match existing with
      | Some _ => raise (HTTPException 400 "Completion already exists")
      | None =>
          let db_completion :=
            Completion.mk (CompletionCreate.habit_id completion)
                          (CompletionCreate.completed_date completion) in
          id ← add_completion db_completion;
          mret (CompletionResponse.mk id (Completion.habit_id db_completion)
                  (Completion.completed_date db_completion))
      end
  end.

Definition delete_completion (completion_id : Z) : Handler string :=
  db_completion ← first_by_id completions completion_id;
  match db_completion with
  | None => raise (HTTPException 404 "Completion not found")
  | Some _ =>
      _ ← delete_completion_row completion_id;
      mret "Completion deleted successfully"
  end.

(** ** Vocabulary of the properties *)

(** The habit [habit_id] has a completion dated [d]. *)
Definition has_completion (db : Session) (habit_id : Z) (d : date) : Prop :=
  ∃ id c, completions db !! id = Some c
          ∧ Completion.habit_id c = habit_id
          ∧ Completion.completed_date c = d.

(** The dates of the completions of a habit, in no particular order. *)
Definition completion_dates (habit_id : Z) (db : Session) : list date :=
  Completion.completed_date
    <$> filter (λ c, Completion.habit_id c = habit_id)
               (map_to_list (completions db)).*2.

(** No two completions of the habit bear the same date. *)
Definition unique_dates (db : Session) (habit_id : Z) : Prop :=
  ∀ i j ci cj,
    completions db !! i = Some ci → completions db !! j = Some cj →
    Completion.habit_id ci = habit_id → Completion.habit_id cj = habit_id →
    Completion.completed_date ci = Completion.completed_date cj → i = j.

(** Every completion belongs to a stored habit. *)
Definition referential_integrity (db : Session) : Prop :=
  ∀ id c, completions db !! id = Some c →
          is_Some (habits db !! Completion.habit_id c).

(** The number of consecutive days [cursor], [cursor - 1], ... that each
    have a date in [dates], up to the first day that has none.  A run is
    never longer than the list, so [fuel = length dates] is enough. *)
Fixpoint count_back (dates : list date) (fuel : nat) (cursor : date) : Z :=
  match fuel with
  | O => 0
  | S fuel =>
      if bool_decide (cursor ∈ dates)
      then 1 + count_back dates fuel (cursor - 1)
      else 0
  end.

(** The streak of section 4.2 of the specification: the cursor starts at
    [today], steps back once if [today] has no completion (the grace step),
    and the run is counted from there. *)
Definition streak_with_grace (today : date) (dates : list date) : Z :=
  match dates with
  | [] => 0
  | _ =>
      let cursor := if bool_decide (today ∈ dates) then today else today - 1 in
      count_back dates (length dates) cursor
  end.

(** The loop without its second branch. *)
Fixpoint streak_loop_simplified (completions : list Completion.t)
    (streak : Z) (current_date : date) : Z :=
  match completions with
  | [] => streak
  | completion :: rest =>
      if bool_decide (Completion.completed_date completion = current_date)
      then streak_loop_simplified rest (streak + 1) (current_date - timedelta 1)
      else streak
  end.

Definition calculate_streak_simplified (today : date) (habit_id : Z)
    (db : Session) : Z :=
  let completions := query_completions habit_id db in
  match completions with
  | [] => 0
  | _ => streak_loop_simplified completions 0 today
  end.

(** ** Sample sessions *)

Definition habit_run : Habit.t := Habit.mk "Run" default_emoji 90.

(** One habit, completed on day 99 only. *)
Definition db_yesterday : Session :=
  mkSession {[ 1 := habit_run ]} {[ 1 := Completion.mk 1 99 ]}.

(** One habit, completed on days 101 and 100. *)
Definition db_tomorrow : Session :=
  mkSession {[ 1 := habit_run ]}
            {[ 1 := Completion.mk 1 101; 2 := Completion.mk 1 100 ]}.

(** One habit, completed on days 100, 99 and 97; another habit's completion
    on day 98. *)
Definition db_run : Session :=
  mkSession {[ 1 := habit_run ]}
            {[ 1 := Completion.mk 1 100; 2 := Completion.mk 1 99;
               3 := Completion.mk 1 97; 4 := Completion.mk 2 98 ]}.

(** One habit and the completions of days 100 and 97. *)
Definition db_gap : Session :=
  mkSession {[ 1 := habit_run ]}
            {[ 1 := Completion.mk 1 100; 2 := Completion.mk 1 97 ]}.

(** The scenario of section 8 of the specification, on day 100: a habit is
    created and completed for days 100 and 99, its streak is read, the
    completion of day 100 is deleted and the streak is read again. *)
Definition scenario : Handler (Z * Z) :=
  habit ← create_habit 100 (HabitCreate.mk "Run" default_emoji);
  today ← create_completion (CompletionCreate.mk (HabitResponse.id habit) 100);
  _ ← create_completion (CompletionCreate.mk (HabitResponse.id habit) 99);
  before ← query (calculate_streak 100 (HabitResponse.id habit));
  _ ← delete_completion (CompletionResponse.id today);
  after ← query (calculate_streak 100 (HabitResponse.id habit));
  mret (before, after).

(** ** Requests

    One constructor for each endpoint that takes the session; [serve] gives
    the session that the endpoint leaves behind when it runs on day
    [today]. *)
Inductive Request : Type :=
  | GetHabits
  | PostHabit (habit : HabitCreate.t)
  | PutHabit (habit_id : Z) (habit : HabitUpdate.t)
  | DeleteHabit (habit_id : Z)
  | GetCompletions
  | PostCompletion (completion : CompletionCreate.t)
  | DeleteCompletion (completion_id : Z).

Definition serve (today : date) (request : Request) (db : Session) : Session :=
  match request with
  | GetHabits => (get_habits today db).2
  | PostHabit habit => (create_habit today habit db).2
  | PutHabit habit_id habit => (update_habit today habit_id habit db).2
  | DeleteHabit habit_id => (delete_habit habit_id db).2
  | GetCompletions => (get_completions db).2
  | PostCompletion completion => (create_completion completion db).2
  | DeleteCompletion completion_id => (delete_completion completion_id db).2
  end.

(** The sessions that a sequence of requests, each served on some day,
    produces from the empty database. *)
Inductive reachable : Session → Prop :=
  | reachable_empty : reachable empty_db
  | reachable_serve (today : date) (request : Request) (db : Session) :
      reachable db → reachable (serve today request db).

(** * Properties *)

(** ** The query of calculate_streak *)

Global Instance date_desc_total : Total date_desc.
Proof. intros c1 c2. unfold date_desc. lia. Qed.

Global Instance date_desc_trans : Transitive date_desc.
Proof. intros c1 c2 c3. unfold date_desc. lia. Qed.

Lemma elem_of_query_completions (c : Completion.t) (habit_id : Z) (db : Session) :
  c ∈ query_completions habit_id db
  ↔ Completion.habit_id c = habit_id ∧ ∃ id, completions db !! id = Some c.
Proof.
  unfold query_completions.
  rewrite merge_sort_Permutation, list_elem_of_filter, list_elem_of_fmap.
  split.
  - intros [Hh [[id c'] [-> Hin]]].
    apply elem_of_map_to_list in Hin. eauto.
  - intros [Hh [id Hid]]. split; [done|].
    exists (id, c). split; [done|]. by apply elem_of_map_to_list.
Qed.

Lemma query_completions_has (c : Completion.t) (habit_id : Z) (db : Session) :
  c ∈ query_completions habit_id db →
  has_completion db habit_id (Completion.completed_date c).
Proof.
  rewrite elem_of_query_completions. intros [Hh [id Hid]].
  by exists id, c.
Qed.

Lemma has_query_completions (habit_id : Z) (db : Session) (d : date) :
  has_completion db habit_id d →
  ∃ c, c ∈ query_completions habit_id db ∧ Completion.completed_date c = d.
Proof.
  intros (id & c & Hid & Hh & Hd). exists c. split; [|done].
  apply elem_of_query_completions. eauto.
Qed.

Lemma elem_of_completion_dates (habit_id : Z) (db : Session) (d : date) :
  d ∈ completion_dates habit_id db ↔ has_completion db habit_id d.
Proof.
  unfold completion_dates. rewrite list_elem_of_fmap. split.
  - intros (c & -> & Hc). apply list_elem_of_filter in Hc as [Hh Hc].
    apply list_elem_of_fmap in Hc as ([id c'] & -> & Hin).
    apply elem_of_map_to_list in Hin. by exists id, c'.
  - intros (id & c & Hid & Hh & Hd). exists c. split; [done|].
    apply list_elem_of_filter. split; [done|].
    apply list_elem_of_fmap. exists (id, c). split; [done|].
    by apply elem_of_map_to_list.
Qed.

Lemma query_completions_dates (habit_id : Z) (db : Session) :
  Completion.completed_date <$> query_completions habit_id db
  ≡ₚ completion_dates habit_id db.
Proof.
  unfold query_completions, completion_dates.
  by rewrite merge_sort_Permutation.
Qed.

(** ** The loop of calculate_streak *)

Lemma loop_branch_Counted (c : Completion.t) (d : date) :
  Completion.completed_date c = d → loop_branch c d = Counted.
Proof. intros H. unfold loop_branch. by rewrite bool_decide_eq_true_2. Qed.

Lemma loop_branch_Broke (c : Completion.t) (d : date) :
  Completion.completed_date c ≠ d → loop_branch c d = Broke.
Proof. intros H. unfold loop_branch. by rewrite !bool_decide_eq_false_2. Qed.

Lemma loop_branch_not_Skipped (c : Completion.t) (d : date) :
  loop_branch c d ≠ Skipped.
Proof.
  destruct (decide (Completion.completed_date c = d)) as [H|H].
  - by rewrite loop_branch_Counted.
  - by rewrite loop_branch_Broke.
Qed.

Lemma streak_loop_simplified_eq (l : list Completion.t) (streak : Z) (d : date) :
  streak_loop l streak d = streak_loop_simplified l streak d.
Proof.
  revert streak d. induction l as [|c l IH]; intros streak d; [done|].
  simpl. destruct (decide (Completion.completed_date c = d)) as [H|H].
  - rewrite loop_branch_Counted, bool_decide_eq_true_2 by done. apply IH.
  - by rewrite loop_branch_Broke, bool_decide_eq_false_2.
Qed.

(** Without a completion dated today the first row of the query already
    takes the [break] branch. *)
Lemma calculate_streak_not_today (today : date) (habit_id : Z) (db : Session) :
  ¬ has_completion db habit_id today → calculate_streak today habit_id db = 0.
Proof.
  intros Hno. unfold calculate_streak.
  destruct (query_completions habit_id db) as [|c l] eqn:Hq; [done|].
  simpl. rewrite loop_branch_Broke; [done|].
  intros Hc. apply Hno. rewrite <- Hc.
  apply query_completions_has. rewrite Hq. left.
Qed.

(** C7: a habit without completions has streak 0. *)
Theorem calculate_streak_empty (today : date) (habit_id : Z) (db : Session) :
  (∀ d, ¬ has_completion db habit_id d) →
  calculate_streak today habit_id db = 0.
Proof. intros Hempty. apply calculate_streak_not_today, Hempty. Qed.

Lemma calculate_streak_empty_witness :
  (∀ d, ¬ has_completion db_run 7 d) ∧ calculate_streak 100 7 db_run = 0.
Proof.
  assert (H : ∀ d, ¬ has_completion db_run 7 d).
  { intros d Hd. apply elem_of_completion_dates in Hd.
    vm_compute in Hd. by apply elem_of_nil in Hd. }
  split; [exact H | exact (calculate_streak_empty 100 7 db_run H)].
Defined.

(** Membership in a sample session is settled by evaluation. *)
Ltac decide_has :=
  rewrite <- ?elem_of_completion_dates;
  apply (bool_decide_unpack _); vm_compute; exact I.

(** C3: with no completion today and none yesterday the streak is 0, whatever
    older completions there are. *)
Theorem calculate_streak_two_days_missed (today : date) (habit_id : Z) (db : Session) :
  ¬ has_completion db habit_id today →
  ¬ has_completion db habit_id (today - 1) →
  calculate_streak today habit_id db = 0.
Proof. intros Htoday _. by apply calculate_streak_not_today. Qed.

Lemma calculate_streak_two_days_missed_witness :
  has_completion db_gap 1 97 ∧ calculate_streak 99 1 db_gap = 0.
Proof.
  split; [decide_has|].
  apply (calculate_streak_two_days_missed 99 1 db_gap); decide_has.
Defined.

(** C1, as the specification states it, fails: with a completion yesterday
    and none today the code returns 0, where counting back from yesterday
    gives 1. *)
Lemma calculate_streak_grace_counterexample :
  ¬ has_completion db_yesterday 1 100
  ∧ has_completion db_yesterday 1 (100 - 1)
  ∧ calculate_streak 100 1 db_yesterday = 0
  ∧ count_back (completion_dates 1 db_yesterday)
      (length (completion_dates 1 db_yesterday)) (100 - 1) = 1
  ∧ streak_with_grace 100 (completion_dates 1 db_yesterday) = 1.
Proof. split_and!; [decide_has | decide_has | done..]. Qed.

(** C1, amended: the loop has no grace step.  With no completion today the
    streak is 0 even when yesterday has one. *)
Theorem calculate_streak_no_grace (today : date) (habit_id : Z) (db : Session) :
  ¬ has_completion db habit_id today →
  has_completion db habit_id (today - 1) →
  calculate_streak today habit_id db = 0.
Proof. intros Htoday _. by apply calculate_streak_not_today. Qed.

Lemma calculate_streak_no_grace_witness :
  calculate_streak 100 1 db_yesterday = 0.
Proof. apply (calculate_streak_no_grace 100 1 db_yesterday); decide_has. Defined.

(** C9: the [elif] branch of the loop is never taken, and calculate_streak
    equals the function whose loop has only the counting branch and the
    [break] branch. *)
Theorem calculate_streak_second_branch_dead :
  (∀ (completion : Completion.t) (current_date : date),
     loop_branch completion current_date ≠ Skipped)
  ∧ (∀ (today : date) (habit_id : Z) (db : Session),
       calculate_streak today habit_id db
       = calculate_streak_simplified today habit_id db).
Proof.
  split; [apply loop_branch_not_Skipped|].
  intros today habit_id db. unfold calculate_streak, calculate_streak_simplified.
  destruct (query_completions habit_id db); [done|].
  apply streak_loop_simplified_eq.
Qed.

(** ** Counting back from today *)

Lemma list_filter_fmap_comm {A B} (f : A → B) (P : B → Prop)
    `{∀ y, Decision (P y)} (l : list A) :
  filter P (f <$> l) = f <$> filter (P ∘ f) l.
Proof.
  induction l as [|x l IH]; [done|].
  rewrite fmap_cons, !filter_cons. simpl.
  destruct (decide (P (f x))); by rewrite IH.
Qed.

Lemma NoDup_fmap_inj_on {A B} (f : A → B) (l : list A) (x y : A) :
  NoDup (f <$> l) → x ∈ l → y ∈ l → f x = f y → x = y.
Proof.
  induction l as [|a l IH]; intros Hnd Hx Hy Hf.
  - by apply elem_of_nil in Hx.
  - rewrite fmap_cons in Hnd. apply NoDup_cons in Hnd as [Ha Hnd].
    apply elem_of_cons in Hx as [->|Hx]; apply elem_of_cons in Hy as [->|Hy].
    + done.
    + exfalso. apply Ha. rewrite Hf. by apply list_elem_of_fmap_2.
    + exfalso. apply Ha. rewrite <- Hf. by apply list_elem_of_fmap_2.
    + by apply IH.
Qed.

Lemma unique_dates_NoDup (db : Session) (habit_id : Z) :
  unique_dates db habit_id ↔ NoDup (completion_dates habit_id db).
Proof.
  unfold completion_dates.
  rewrite list_filter_fmap_comm, <- list_fmap_compose. split.
  - intros Huniq. apply NoDup_fmap_2_strong.
    + intros [i ci] [j cj] Hi Hj Hd.
      apply list_elem_of_filter in Hi as [Hhi Hi].
      apply list_elem_of_filter in Hj as [Hhj Hj].
      apply elem_of_map_to_list in Hi, Hj. simpl in *.
      assert (i = j) as -> by eauto. congruence.
    + apply NoDup_filter, NoDup_map_to_list.
  - intros Hnd i j ci cj Hi Hj Hhi Hhj Hd.
    assert (Heq : (i, ci) = (j, cj)); [|congruence].
    eapply NoDup_fmap_inj_on; [exact Hnd| | |exact Hd];
      apply list_elem_of_filter; (split; [done|]); by apply elem_of_map_to_list.
Qed.

Lemma count_back_none (dates : list date) (fuel : nat) (cursor : date) :
  cursor ∉ dates → count_back dates fuel cursor = 0.
Proof. intros H. destruct fuel; [done|]. simpl. by rewrite bool_decide_eq_false_2. Qed.

Lemma count_back_ext (ds1 ds2 : list date) (fuel : nat) (cursor : date) :
  (∀ d, d ∈ ds1 ↔ d ∈ ds2) →
  count_back ds1 fuel cursor = count_back ds2 fuel cursor.
Proof.
  intros Hext. revert cursor. induction fuel as [|fuel IH]; intros cursor; [done|].
  simpl. rewrite (bool_decide_ext _ _ (Hext cursor)). by rewrite IH.
Qed.

Lemma count_back_cons_later (x : date) (dates : list date) (fuel : nat) (cursor : date) :
  cursor < x → count_back (x :: dates) fuel cursor = count_back dates fuel cursor.
Proof.
  revert cursor. induction fuel as [|fuel IH]; intros cursor Hlt; [done|].
  simpl. rewrite IH by lia. apply (f_equal (λ b : bool, if b then _ else _)).
  apply bool_decide_ext. rewrite elem_of_cons. intuition lia.
Qed.

(** On a query result without repeated dates and without a date after the
    cursor, the loop counts the run of consecutive days that ends at the
    cursor. *)
Lemma streak_loop_count_back (l : list Completion.t) (streak : Z)
    (cursor : date) (fuel : nat) :
  StronglySorted date_desc l →
  NoDup (Completion.completed_date <$> l) →
  Forall (λ c, Completion.completed_date c ≤ cursor) l →
  (length l ≤ fuel)%nat →
  streak_loop l streak cursor
  = streak + count_back (Completion.completed_date <$> l) fuel cursor.
Proof.
  revert streak cursor fuel.
  induction l as [|c l IH]; intros streak cursor fuel Hsort Hnd Hle Hfuel.
  - simpl. rewrite count_back_none; [lia | apply not_elem_of_nil].
  - apply StronglySorted_cons in Hsort as [Hc Hsort].
    rewrite fmap_cons in Hnd. apply NoDup_cons in Hnd as [Hfresh Hnd].
    apply Forall_cons in Hle as [Hcle Hle].
    destruct fuel as [|fuel]; [simpl in Hfuel; lia|]. simpl in Hfuel.
    destruct (decide (Completion.completed_date c = cursor)) as [Heq|Hne].
    + simpl streak_loop. rewrite loop_branch_Counted by done.
      assert (Hrest : Forall (λ c', Completion.completed_date c' ≤ cursor - timedelta 1) l).
      { apply Forall_forall. intros c' Hc'.
        assert (Completion.completed_date c' ≠ Completion.completed_date c).
        { intros E. apply Hfresh. rewrite <- E. by apply list_elem_of_fmap_2. }
        rewrite Forall_forall in Hc. specialize (Hc c' Hc').
        unfold date_desc, timedelta in *. lia. }
      rewrite (IH _ _ fuel) by (done || lia).
      rewrite fmap_cons. simpl count_back.
      rewrite bool_decide_eq_true_2 by (rewrite Heq; left).
      rewrite Heq, count_back_cons_later by lia. unfold timedelta. lia.
    + simpl streak_loop. rewrite loop_branch_Broke by done.
      rewrite count_back_none; [lia|].
      rewrite fmap_cons. apply not_elem_of_cons. split; [done|].
      intros Hin. apply list_elem_of_fmap in Hin as (c' & -> & Hc').
      rewrite Forall_forall in Hc. specialize (Hc c' Hc').
      unfold date_desc in Hc. lia.
Qed.

(** X19: when the dates of the habit are distinct and none is after today,
    a completion dated today starts a run that the loop counts to its first
    gap (this is where C2 does hold). *)
Lemma calculate_streak_counts_back (today : date) (habit_id : Z) (db : Session) :
  unique_dates db habit_id →
  has_completion db habit_id today →
  (∀ d, has_completion db habit_id d → d ≤ today) →
  calculate_streak today habit_id db
  = 1 + count_back (completion_dates habit_id db)
          (length (completion_dates habit_id db)) (today - 1).
Proof.
  intros Huniq Htoday Hmax.
  pose proof (query_completions_dates habit_id db) as Hperm.
  assert (Hsort : StronglySorted date_desc (query_completions habit_id db))
    by (unfold query_completions; apply StronglySorted_merge_sort; apply _).
  assert (Hnd : NoDup (Completion.completed_date <$> query_completions habit_id db))
    by (rewrite Hperm; by apply unique_dates_NoDup).
  assert (Hle : Forall (λ c, Completion.completed_date c ≤ today)
                       (query_completions habit_id db)).
  { apply Forall_forall. intros c Hc. by apply Hmax, query_completions_has. }
  apply has_query_completions in Htoday as (c0 & Hc0 & Hd0).
  rewrite <- (count_back_ext _ _ _ _ (λ d, elem_of_Permutation_proper d _ _ Hperm)).
  rewrite <- Hperm, length_fmap.
  unfold calculate_streak.
  destruct (query_completions habit_id db) as [|c l]; [by apply elem_of_nil in Hc0|].
  apply StronglySorted_cons in Hsort as [Hc Hsort].
  apply Forall_cons in Hle as [Hcle Hle].
  assert (Hhead : Completion.completed_date c = today).
  { apply elem_of_cons in Hc0 as [->|Hc0]; [done|].
    rewrite Forall_forall in Hc. specialize (Hc c0 Hc0).
    unfold date_desc in Hc. lia. }
  rewrite (streak_loop_count_back (c :: l) 0 today (S (length (c :: l))));
    [|by constructor|done|by constructor|lia].
  rewrite fmap_cons, Hhead. simpl count_back.
  rewrite bool_decide_eq_true_2 by left. lia.
Qed.

(** C2 fails on the code when a completion is dated after today: the
    habit below is completed today (day 100) and on day 101, its dates are
    unique, and the streak is 0 where the run that ends today has length 1.
    The query lists day 101 first and the loop breaks on it. *)
Theorem calculate_streak_later_completion :
  unique_dates db_tomorrow 1
  ∧ has_completion db_tomorrow 1 100
  ∧ calculate_streak 100 1 db_tomorrow = 0
  ∧ 1 + count_back (completion_dates 1 db_tomorrow)
          (length (completion_dates 1 db_tomorrow)) (100 - 1) = 1.
Proof.
  split_and!; [|decide_has|done..].
  apply unique_dates_NoDup. apply (bool_decide_unpack _). vm_compute. exact I.
Qed.

Lemma calculate_streak_counts_back_run :
  calculate_streak 100 1 db_run = 2.
Proof.
  rewrite (calculate_streak_counts_back 100 1 db_run); [done| | |].
  - apply unique_dates_NoDup. apply (bool_decide_unpack _). vm_compute. exact I.
  - decide_has.
  - intros d Hd. apply elem_of_completion_dates in Hd. vm_compute in Hd.
    repeat (apply elem_of_cons in Hd as [->|Hd]; [lia|]).
    by apply elem_of_nil in Hd.
Defined.

(** ** The store *)

Lemma foldr_max_bound (l : list Z) (k : Z) : k ∈ l → k ≤ foldr Z.max 0 l.
Proof.
  induction l as [|x l IH]; intros Hk; [by apply elem_of_nil in Hk|].
  simpl. apply elem_of_cons in Hk as [->|Hk]; [lia|].
  specialize (IH Hk). lia.
Qed.

(** The key of a new row is not in use. *)
Lemma next_id_fresh {A} (table : gmap Z A) : table !! next_id table = None.
Proof.
  destruct (table !! next_id table) as [x|] eqn:Hx; [|done]. exfalso.
  assert (Hin : next_id table ∈ (map_to_list table).*1).
  { apply list_elem_of_fmap. exists (next_id table, x).
    split; [done|]. by apply elem_of_map_to_list. }
  apply foldr_max_bound in Hin. unfold next_id in Hin at 1. lia.
Qed.

Lemma query_existing_None (habit_id : Z) (d : date) (db : Session) :
  query_existing habit_id d db = None ↔ ¬ has_completion db habit_id d.
Proof.
  unfold query_existing. rewrite head_None. split.
  - intros Hnil (id & c & Hid & Hh & Hd).
    eapply (filter_nil_not_elem_of _ _ (id, c)); [exact Hnil|done|].
    by apply elem_of_map_to_list.
  - intros Hno.
    destruct (filter _ _) as [|[id c] l] eqn:Hf; [done|]. exfalso.
    assert (Hin : (id, c) ∈ (id, c) :: l) by left.
    rewrite <- Hf in Hin. apply list_elem_of_filter in Hin as [[Hh Hd] Hin].
    apply elem_of_map_to_list in Hin. apply Hno. by exists id, c.
Qed.

Lemma query_existing_Some (habit_id : Z) (d : date) (db : Session) :
  is_Some (query_existing habit_id d db) ↔ has_completion db habit_id d.
Proof.
  destruct (query_existing habit_id d db) as [[id c]|] eqn:Hq.
  - split; [intros _|by eauto].
    apply head_Some_elem_of, list_elem_of_filter in Hq as [[Hh Hd] Hin].
    apply elem_of_map_to_list in Hin. by exists id, c.
  - split; [by intros [? ?]|]. intros H.
    by apply query_existing_None in Hq.
Qed.

(** ** Lookups by id *)


Lemma first_by_id_None {A} (table : Session → gmap Z A) (id : Z) (db : Session) :
  table db !! id = None → int64 id →
  first_by_id table id db = (Return None, db).
Proof. intros H Hid. unfold first_by_id. by rewrite H, bool_decide_eq_true_2. Qed.

Lemma first_by_id_overflow {A} (table : Session → gmap Z A) (id : Z) (db : Session) :
  table db !! id = None → ¬ int64 id →
  first_by_id table id db = (Raise OverflowError, db).
Proof. intros H Hid. unfold first_by_id. by rewrite H, bool_decide_eq_false_2. Qed.

(** An id that is not stored and does not fit in 64 bits makes each of the
    four lookups raise, and the session stays as it was. *)
Lemma absent_id_overflow (id : Z) (db : Session) :
  ¬ int64 id →
  (habits db !! id = None →
     (∀ today habit, update_habit today id habit db = (Raise OverflowError, db))
     ∧ delete_habit id db = (Raise OverflowError, db)
     ∧ ∀ d, create_completion (CompletionCreate.mk id d) db
            = (Raise OverflowError, db))
  ∧ (completions db !! id = None →
     delete_completion id db = (Raise OverflowError, db)).
Proof.
  intros Hid. split.
  - intros Hh. split_and!; [intros today habit| |intros d].
    + unfold update_habit, mbind, Handler_bind. by rewrite first_by_id_overflow.
    + unfold delete_habit, mbind, Handler_bind. by rewrite first_by_id_overflow.
    + unfold create_completion, mbind, Handler_bind.
      by rewrite first_by_id_overflow.
  - intros Hc. unfold delete_completion, mbind, Handler_bind.
    by rewrite first_by_id_overflow.
Qed.

(** ** create_completion *)

Lemma create_completion_not_found (completion : CompletionCreate.t) (db : Session) :
  habits db !! CompletionCreate.habit_id completion = None →
  int64 (CompletionCreate.habit_id completion) →
  create_completion completion db
  = (Raise (HTTPException 404 "Habit not found"), db).
Proof.
  intros Hh Hid. unfold create_completion, mbind, Handler_bind.
  by rewrite first_by_id_None.
Qed.

Lemma create_completion_conflict (completion : CompletionCreate.t) (db : Session) :
  is_Some (habits db !! CompletionCreate.habit_id completion) →
  has_completion db (CompletionCreate.habit_id completion)
                 (CompletionCreate.completed_date completion) →
  create_completion completion db
  = (Raise (HTTPException 400 "Completion already exists"), db).
Proof.
  intros [h Hh] [kc Hex]%query_existing_Some.
  unfold create_completion, mbind, Handler_bind, first_by_id, query. by rewrite Hh, Hex.
Qed.

Lemma create_completion_inserts (completion : CompletionCreate.t) (db : Session) :
  is_Some (habits db !! CompletionCreate.habit_id completion) →
  ¬ has_completion db (CompletionCreate.habit_id completion)
                   (CompletionCreate.completed_date completion) →
  create_completion completion db
  = (Return (CompletionResponse.mk (next_id (completions db))
               (CompletionCreate.habit_id completion)
               (CompletionCreate.completed_date completion)),
     mkSession (habits db)
       (<[next_id (completions db) :=
            Completion.mk (CompletionCreate.habit_id completion)
                          (CompletionCreate.completed_date completion)]>
          (completions db))).
Proof.
  intros [h Hh] Hex%query_existing_None.
  unfold create_completion, mbind, Handler_bind, first_by_id, query. by rewrite Hh, Hex.
Qed.




(** ** create_habit *)

(** C5, as the specification states it, fails: an empty name is accepted
    and the habit is stored. *)
Lemma create_habit_empty_name_counterexample :
  post_habits 100 (mkHabitCreateBody (Some (JString "")) None) empty_db
  = (Return (HabitResponse.mk 1 "" default_emoji 0 100),
     mkSession {[ 1 := Habit.mk "" default_emoji 100 ]} ∅)
  ∧ create_habit 100 (HabitCreate.mk "" default_emoji) empty_db
    = (Return (HabitResponse.mk 1 "" default_emoji 0 100),
       mkSession {[ 1 := Habit.mk "" default_emoji 100 ]} ∅).
Proof. split; reflexivity. Qed.

(** C5, amended: an empty name is not rejected.  For every request whose
    name is a string, the empty one included, and whose emoji is a string or
    is left out, the habit is stored under an unused id with that name, with
    the emoji of the request or the default one when it is left out, and with
    today as its creation date. *)
Theorem create_habit_accepts_any_name (today : date) (name : string)
    (emoji : option string) (db : Session) :
  let body := mkHabitCreateBody (Some (JString name)) (JString <$> emoji) in
  let emoji' := default default_emoji emoji in
  ∃ id,
    habits db !! id = None
    ∧ HabitCreate.validate body = Return (HabitCreate.mk name emoji')
    ∧ create_habit today (HabitCreate.mk name emoji') db
      = (Return (HabitResponse.mk id name emoji' 0 today),
         mkSession (<[id := Habit.mk name emoji' today]> (habits db))
                   (completions db))
    ∧ post_habits today body db
      = create_habit today (HabitCreate.mk name emoji') db.
Proof.
  intros body emoji'. exists (next_id (habits db)).
  split_and!; [apply next_id_fresh|by destruct emoji|done|].
  unfold post_habits, body, emoji'. by destruct emoji.
Qed.

(** A body whose emoji is present but is not a string, [null] for one, is
    refused by the validation and nothing is stored. *)
Lemma post_habits_null_emoji (today : date) (name : string) (db : Session) :
  post_habits today (mkHabitCreateBody (Some (JString name)) (Some JNull)) db
  = (Raise (RequestValidationError ["emoji"]), db).
Proof. reflexivity. Qed.

(** A body without a name is refused as well. *)
Lemma post_habits_no_name (today : date) (emoji : option string) (db : Session) :
  post_habits today (mkHabitCreateBody None (JString <$> emoji)) db
  = (Raise (RequestValidationError ["name"]), db).
Proof. by destruct emoji. Qed.

(** ** update_habit *)




(** ** delete_habit *)




(** ** delete_completion *)




(** ** Invariants of the store

    Every session reached from the empty one through the endpoints keeps
    each completion attached to a stored habit and keeps the dates of a
    habit distinct. *)

Lemma referential_integrity_empty : referential_integrity empty_db.
Proof. intros id c Hc. simpl in Hc. by rewrite lookup_empty in Hc. Qed.

Lemma create_habit_integrity (today : date) (habit : HabitCreate.t) (db : Session) :
  referential_integrity db →
  referential_integrity (create_habit today habit db).2.
Proof.
  intros Hri id c Hc. simpl in *. destruct (Hri id c Hc) as [h Hh].
  destruct (decide (next_id (habits db) = Completion.habit_id c)) as [->|Hne].
  - rewrite lookup_insert_eq. eauto.
  - rewrite lookup_insert_ne by done. eauto.
Qed.

Lemma update_habit_integrity (today : date) (habit_id : Z) (habit : HabitUpdate.t)
    (db : Session) :
  referential_integrity db →
  referential_integrity (update_habit today habit_id habit db).2.
Proof.
  intros Hri. unfold update_habit, mbind, Handler_bind, first_by_id, query.
  destruct (habits db !! habit_id) as [h|] eqn:Hh; [|by case_bool_decide].
  intros id c Hc. simpl in *. destruct (Hri id c Hc) as [h' Hh'].
  destruct (decide (habit_id = Completion.habit_id c)) as [->|Hne].
  - rewrite lookup_insert_eq. eauto.
  - rewrite lookup_insert_ne by done. eauto.
Qed.

Lemma delete_habit_integrity (habit_id : Z) (db : Session) :
  referential_integrity db →
  referential_integrity (delete_habit habit_id db).2.
Proof.
  intros Hri. unfold delete_habit, mbind, Handler_bind, first_by_id, query.
  destruct (habits db !! habit_id) as [h|] eqn:Hh; [|by case_bool_decide].
  intros id c Hc. simpl in *.
  apply map_lookup_filter_Some in Hc as [Hc Hne]. simpl in Hne.
  rewrite lookup_delete_ne by done. by eapply Hri.
Qed.

Lemma create_completion_integrity (completion : CompletionCreate.t) (db : Session) :
  referential_integrity db →
  referential_integrity (create_completion completion db).2.
Proof.
  intros Hri. unfold create_completion, mbind, Handler_bind, first_by_id, query.
  destruct (habits db !! CompletionCreate.habit_id completion) as [h|] eqn:Hh;
    [|by case_bool_decide].
  destruct (query_existing _ _ db) as [kc|]; [done|].
  intros id c Hc. simpl in *.
  apply lookup_insert_Some in Hc as [[_ <-]|[_ Hc]]; [by eauto|by eapply Hri].
Qed.

Lemma delete_completion_integrity (completion_id : Z) (db : Session) :
  referential_integrity db →
  referential_integrity (delete_completion completion_id db).2.
Proof.
  intros Hri. unfold delete_completion, mbind, Handler_bind, first_by_id, query.
  destruct (completions db !! completion_id) as [c0|] eqn:Hc0; [|by case_bool_decide].
  intros id c Hc. simpl in *.
  apply lookup_delete_Some in Hc as [_ Hc]. by eapply Hri.
Qed.

(** The duplicate check of create_completion keeps the dates of every
    habit distinct. *)
Lemma create_completion_unique_dates (completion : CompletionCreate.t)
    (db : Session) :
  (∀ habit_id, unique_dates db habit_id) →
  ∀ habit_id, unique_dates (create_completion completion db).2 habit_id.
Proof.
  intros Huniq habit_id. unfold create_completion, mbind, Handler_bind, first_by_id, query.
  destruct (habits db !! CompletionCreate.habit_id completion) as [h|] eqn:Hh;
    [|by case_bool_decide; apply Huniq].
  destruct (query_existing _ _ db) as [kc|] eqn:Hex; [by apply Huniq|].
  apply query_existing_None in Hex.
  intros i j ci cj Hi Hj Hhi Hhj Hd. simpl in *.
  apply lookup_insert_Some in Hi as [[<- <-]|[Hni Hi]];
    apply lookup_insert_Some in Hj as [[<- <-]|[Hnj Hj]]; simpl in *.
  - done.
  - exfalso. apply Hex. exists j, cj. split_and!; [done|congruence|congruence].
  - exfalso. apply Hex. exists i, ci. split_and!; [done|congruence|congruence].
  - by eapply (Huniq habit_id).
Qed.

(** ** The scenario of section 8

    The streak is 2 with both completions and 0, not 1, once the completion
    of today is deleted: the loop has no grace step. *)
Example scenario_streaks : (scenario empty_db).1 = Return (2, 0).
Proof. reflexivity. Qed.

(** * Further properties of the code *)

(** ** What a streak guarantees *)

Lemma streak_loop_sound (l : list Completion.t) (streak : Z) (cursor : date) :
  streak ≤ streak_loop l streak cursor ≤ streak + Z.of_nat (length l)
  ∧ ∀ k, 0 ≤ k < streak_loop l streak cursor - streak →
         ∃ c, c ∈ l ∧ Completion.completed_date c = cursor - k.
Proof.
  revert streak cursor. induction l as [|c l IH]; intros streak cursor.
  - simpl. split; [lia|]. intros k Hk. lia.
  - destruct (decide (Completion.completed_date c = cursor)) as [Heq|Hne].
    + simpl streak_loop. rewrite loop_branch_Counted by done.
      destruct (IH (streak + 1) (cursor - timedelta 1)) as [Hb Hdays].
      split; [simpl length; lia|].
      intros k Hk. destruct (decide (k = 0)) as [->|Hk0].
      * exists c. split; [left|lia].
      * destruct (Hdays (k - 1)) as (c' & Hc' & Hd'); [lia|].
        exists c'. split; [by right|]. unfold timedelta in Hd'. lia.
    + simpl streak_loop. rewrite loop_branch_Broke by done.
      split; [simpl length; lia|]. intros k Hk. lia.
Qed.

(** X1: a streak is never negative, never exceeds the number of completions
    of the habit, and each of its days, from today backwards, has a
    completion. *)
Theorem calculate_streak_sound (today : date) (habit_id : Z) (db : Session) :
  0 ≤ calculate_streak today habit_id db
    ≤ Z.of_nat (length (completion_dates habit_id db))
  ∧ ∀ k, 0 ≤ k < calculate_streak today habit_id db →
         has_completion db habit_id (today - k).
Proof.
  pose proof (query_completions_dates habit_id db) as Hperm.
  apply Permutation_length in Hperm. rewrite length_fmap in Hperm.
  rewrite <- Hperm. unfold calculate_streak.
  pose proof (streak_loop_sound (query_completions habit_id db) 0 today)
    as [Hb Hdays].
  destruct (query_completions habit_id db) as [|c l] eqn:Hq.
  - simpl. split; [lia|]. intros k Hk. lia.
  - split; [lia|]. intros k Hk.
    destruct (Hdays k) as (c' & Hc' & Hd'); [lia|].
    rewrite <- Hd'. apply query_completions_has. by rewrite Hq.
Qed.


(** ** Habits do not interfere *)

(** Rows of one habit that bear the same date are the same row, so the
    date-descending order of a habit's rows is unique. *)
Lemma date_desc_antisym_on (habit_id : Z) (c1 c2 : Completion.t) :
  Completion.habit_id c1 = habit_id → Completion.habit_id c2 = habit_id →
  date_desc c1 c2 → date_desc c2 c1 → c1 = c2.
Proof.
  destruct c1 as [h1 d1], c2 as [h2 d2]. unfold date_desc. simpl.
  intros -> -> H1 H2. f_equal. lia.
Qed.

Lemma query_completions_sorted (habit_id : Z) (db : Session) :
  StronglySorted date_desc (query_completions habit_id db).
Proof. unfold query_completions. apply StronglySorted_merge_sort; apply _. Qed.

(** The result of the query is fixed by the rows of the habit, as a
    multiset. *)
Lemma query_completions_unique (habit_id : Z) (db : Session)
    (l : list Completion.t) :
  StronglySorted date_desc l →
  l ≡ₚ filter (λ c, Completion.habit_id c = habit_id)
              (map_to_list (completions db)).*2 →
  query_completions habit_id db = l.
Proof.
  intros Hsort Hperm.
  apply (StronglySorted_unique_strong date_desc).
  - intros c1 c2 Hc1 Hc2. apply (date_desc_antisym_on habit_id).
    + by apply elem_of_query_completions in Hc1 as [? _].
    + rewrite Hperm in Hc2. by apply list_elem_of_filter in Hc2 as [? _].
  - apply query_completions_sorted.
  - done.
  - unfold query_completions. by rewrite merge_sort_Permutation.
Qed.

(** Two sessions with the same rows for a habit give it the same query
    result. *)
Lemma query_completions_agree (habit_id : Z) (db1 db2 : Session) :
  (∀ id c, Completion.habit_id c = habit_id →
           (completions db1 !! id = Some c ↔ completions db2 !! id = Some c)) →
  query_completions habit_id db1 = query_completions habit_id db2.
Proof.
  intros Hagree. symmetry. apply query_completions_unique.
  - apply query_completions_sorted.
  - unfold query_completions. rewrite merge_sort_Permutation.
    rewrite !list_filter_fmap_comm. apply fmap_Permutation.
    apply NoDup_Permutation.
    + apply NoDup_filter, NoDup_map_to_list.
    + apply NoDup_filter, NoDup_map_to_list.
    + intros [id c]. rewrite !list_elem_of_filter, !elem_of_map_to_list. simpl.
      split; intros [Hh Hin]; (split; [done|]); by apply (Hagree id c Hh).
Qed.

Lemma calculate_streak_agree (today : date) (habit_id : Z) (db1 db2 : Session) :
  (∀ id c, Completion.habit_id c = habit_id →
           (completions db1 !! id = Some c ↔ completions db2 !! id = Some c)) →
  calculate_streak today habit_id db1 = calculate_streak today habit_id db2.
Proof.
  intros Hagree. unfold calculate_streak.
  by rewrite (query_completions_agree habit_id db1 db2).
Qed.

(** X3: recording a completion for one habit, whether it succeeds or is
    refused, leaves the streak of every other habit as it was. *)
Theorem create_completion_other_streak (today : date) (habit_id : Z)
    (completion : CompletionCreate.t) (db : Session) :
  habit_id ≠ CompletionCreate.habit_id completion →
  calculate_streak today habit_id (create_completion completion db).2
  = calculate_streak today habit_id db.
Proof.
  intros Hne. apply calculate_streak_agree. intros id c Hh.
  unfold create_completion, mbind, Handler_bind, first_by_id, query.
  destruct (habits db !! CompletionCreate.habit_id completion) as [h|]; [|by case_bool_decide].
  destruct (query_existing _ _ db) as [kc|]; [done|]. simpl.
  rewrite lookup_insert_Some. split.
  - intros [[_ <-]|[_ Hc]]; [|done]. simpl in Hh. congruence.
  - intros Hc. right. split; [|done]. intros <-.
    by rewrite next_id_fresh in Hc.
Qed.

Lemma create_completion_other_streak_witness :
  calculate_streak 100 1 (create_completion (CompletionCreate.mk 2 100) db_run).2
  = calculate_streak 100 1 db_run.
Proof. apply (create_completion_other_streak 100 1). simpl. lia. Defined.

(** X4: deleting a habit leaves the streak of every other habit as it
    was. *)
Theorem delete_habit_other_streak (today : date) (habit_id other : Z)
    (db : Session) :
  other ≠ habit_id →
  calculate_streak today other (delete_habit habit_id db).2
  = calculate_streak today other db.
Proof.
  intros Hne. apply calculate_streak_agree. intros id c Hh.
  unfold delete_habit, mbind, Handler_bind, first_by_id, query.
  destruct (habits db !! habit_id) as [h|]; [|by case_bool_decide]. simpl.
  rewrite map_lookup_filter_Some. simpl. split; [by intros [? _]|].
  intros Hc. split; [done|congruence].
Qed.

Lemma delete_habit_other_streak_witness :
  calculate_streak 98 2 (delete_habit 1 db_run).2 = calculate_streak 98 2 db_run.
Proof. apply (delete_habit_other_streak 98 1 2). lia. Defined.

(** X5: deleting a completion of one habit leaves the streak of every other
    habit as it was. *)
Theorem delete_completion_other_streak (today : date) (habit_id : Z)
    (completion_id : Z) (db_completion : Completion.t) (db : Session) :
  completions db !! completion_id = Some db_completion →
  Completion.habit_id db_completion ≠ habit_id →
  calculate_streak today habit_id (delete_completion completion_id db).2
  = calculate_streak today habit_id db.
Proof.
  intros Hc Hne. apply calculate_streak_agree. intros id c Hh.
  unfold delete_completion, mbind, Handler_bind, first_by_id, query. rewrite Hc. simpl.
  rewrite lookup_delete_Some. split; [by intros [_ ?]|].
  intros Hid. split; [|done]. intros <-. congruence.
Qed.

Lemma delete_completion_other_streak_witness :
  calculate_streak 100 1 (delete_completion 4 db_run).2
  = calculate_streak 100 1 db_run.
Proof.
  apply (delete_completion_other_streak 100 1 4 (Completion.mk 2 98));
    [reflexivity | simpl; lia].
Defined.

(** ** Checking in and undoing it *)

Lemma streak_loop_shift (l : list Completion.t) (streak : Z) (cursor : date) :
  streak_loop l streak cursor = streak + streak_loop l 0 cursor.
Proof.
  revert streak cursor. induction l as [|c l IH]; intros streak cursor.
  - simpl. lia.
  - simpl. destruct (loop_branch c cursor).
    + rewrite (IH (streak + 1)), (IH (0 + 1)). lia.
    + apply IH.
    + lia.
Qed.

Lemma calculate_streak_loop (today : date) (habit_id : Z) (db : Session) :
  calculate_streak today habit_id db
  = streak_loop (query_completions habit_id db) 0 today.
Proof. unfold calculate_streak. by destruct (query_completions habit_id db). Qed.

(** A new row dated no earlier than the rows of its habit comes first in
    the query. *)
Lemma query_completions_insert_latest (id habit_id : Z) (d : date) (db : Session) :
  completions db !! id = None →
  (∀ d', has_completion db habit_id d' → d' ≤ d) →
  query_completions habit_id
    (mkSession (habits db) (<[id := Completion.mk habit_id d]> (completions db)))
  = Completion.mk habit_id d :: query_completions habit_id db.
Proof.
  intros Hfresh Hmax. apply query_completions_unique.
  - apply StronglySorted_cons. split; [|apply query_completions_sorted].
    apply Forall_forall. intros c Hc.
    apply query_completions_has, Hmax in Hc. by unfold date_desc.
  - simpl. rewrite (map_to_list_insert _ _ _ Hfresh).
    rewrite fmap_cons, filter_cons_True by done.
    unfold query_completions. by rewrite merge_sort_Permutation.
Qed.

(** X6: when no completion of the habit is dated after today, checking in
    today makes the streak one more than the streak as of yesterday. *)
Theorem create_completion_extends_streak (today : date) (habit_id : Z)
    (db : Session) :
  is_Some (habits db !! habit_id) →
  ¬ has_completion db habit_id today →
  (∀ d, has_completion db habit_id d → d ≤ today) →
  calculate_streak today habit_id
    (create_completion (CompletionCreate.mk habit_id today) db).2
  = 1 + calculate_streak (today - 1) habit_id db.
Proof.
  intros Hh Hno Hmax.
  rewrite (create_completion_inserts (CompletionCreate.mk habit_id today) db)
    by done.
  rewrite !calculate_streak_loop. simpl.
  rewrite query_completions_insert_latest by (done || apply next_id_fresh).
  simpl. rewrite loop_branch_Counted by done.
  rewrite streak_loop_shift. unfold timedelta. lia.
Qed.

Lemma create_completion_extends_streak_witness :
  calculate_streak 101 1 (create_completion (CompletionCreate.mk 1 101) db_run).2
  = 1 + calculate_streak (101 - 1) 1 db_run.
Proof.
  apply (create_completion_extends_streak 101 1 db_run).
  - by exists habit_run.
  - decide_has.
  - intros d Hd. apply elem_of_completion_dates in Hd. vm_compute in Hd.
    repeat (apply elem_of_cons in Hd as [->|Hd]; [lia|]).
    by apply elem_of_nil in Hd.
Defined.

(** X7: deleting the completion of today brings the streak of its habit to
    0, whatever the days before: the streak does not fall back on
    yesterday. *)
Theorem delete_completion_today_resets (today : date) (completion_id : Z)
    (db_completion : Completion.t) (db : Session) :
  completions db !! completion_id = Some db_completion →
  Completion.completed_date db_completion = today →
  unique_dates db (Completion.habit_id db_completion) →
  calculate_streak today (Completion.habit_id db_completion)
    (delete_completion completion_id db).2 = 0.
Proof.
  intros Hc Hd Huniq. apply calculate_streak_not_today.
  unfold delete_completion, mbind, Handler_bind, first_by_id, query. rewrite Hc. simpl.
  intros (id & c & Hid & Hh & Hdc). simpl in Hid.
  apply lookup_delete_Some in Hid as [Hne Hid]. apply Hne.
  apply (Huniq completion_id id db_completion c); congruence.
Qed.

Lemma delete_completion_today_resets_witness :
  calculate_streak 100 1 (delete_completion 1 db_run).2 = 0.
Proof.
  apply (delete_completion_today_resets 100 1 (Completion.mk 1 100) db_run);
    [reflexivity | reflexivity |].
  apply unique_dates_NoDup. apply (bool_decide_unpack _). vm_compute. exact I.
Defined.

(** X8: deleting a completion right after its creation, by the id that
    create_completion returned, gives back the session as it was. *)
Theorem create_delete_completion_round_trip (completion : CompletionCreate.t)
    (db db' : Session) (response : CompletionResponse.t) :
  create_completion completion db = (Return response, db') →
  delete_completion (CompletionResponse.id response) db'
  = (Return "Completion deleted successfully", db).
Proof.
  unfold create_completion, mbind, Handler_bind, first_by_id, query.
  destruct (habits db !! CompletionCreate.habit_id completion) as [h|];
    [|by case_bool_decide].
  destruct (query_existing _ _ db) as [kc|]; [discriminate|].
  simpl. intros [= <- <-]. simpl.
  unfold delete_completion, mbind, Handler_bind, first_by_id, query. simpl.
  rewrite lookup_insert_eq. simpl.
  rewrite delete_insert_id by apply next_id_fresh. by destruct db.
Qed.

Lemma create_delete_completion_round_trip_witness :
  delete_completion 5 (create_completion (CompletionCreate.mk 1 98) db_run).2
  = (Return "Completion deleted successfully", db_run).
Proof.
  apply (create_delete_completion_round_trip (CompletionCreate.mk 1 98) db_run
           _ (CompletionResponse.mk 5 1 98)).
  reflexivity.
Defined.

(** X9: a request that has just succeeded is refused when it is sent again:
    the second create_completion answers 400 and stores nothing. *)
Theorem create_completion_twice (completion : CompletionCreate.t)
    (db db' : Session) (response : CompletionResponse.t) :
  create_completion completion db = (Return response, db') →
  create_completion completion db'
  = (Raise (HTTPException 400 "Completion already exists"), db').
Proof.
  unfold create_completion at 1. unfold mbind, Handler_bind, first_by_id, query.
  destruct (habits db !! CompletionCreate.habit_id completion) as [h|] eqn:Hh;
    [|by case_bool_decide].
  destruct (query_existing _ _ db) as [kc|]; [discriminate|].
  simpl. intros [= <- <-]. apply create_completion_conflict.
  - simpl. eauto.
  - exists (next_id (completions db)), (Completion.mk
      (CompletionCreate.habit_id completion)
      (CompletionCreate.completed_date completion)).
    simpl. by rewrite lookup_insert_eq.
Qed.

Lemma create_completion_twice_witness :
  create_completion (CompletionCreate.mk 1 98)
    (create_completion (CompletionCreate.mk 1 98) db_run).2
  = (Raise (HTTPException 400 "Completion already exists"),
     (create_completion (CompletionCreate.mk 1 98) db_run).2).
Proof.
  apply (create_completion_twice (CompletionCreate.mk 1 98) db_run
           _ (CompletionResponse.mk 5 1 98)).
  reflexivity.
Defined.

(** ** New and deleted habits *)

Lemma fresh_habit_no_completion (db : Session) (d : date) :
  referential_integrity db →
  ¬ has_completion db (next_id (habits db)) d.
Proof.
  intros Hri (id & c & Hid & Hh & _).
  destruct (Hri id c Hid) as [h Hsome].
  rewrite Hh, next_id_fresh in Hsome. discriminate.
Qed.

(** X10: in a session where every completion belongs to a stored habit, the
    streak 0 that create_habit reports is the streak that calculate_streak
    gives the new habit, on any day. *)
Theorem create_habit_streak_consistent (today day : date) (habit : HabitCreate.t)
    (db db' : Session) (response : HabitResponse.t) :
  referential_integrity db →
  create_habit today habit db = (Return response, db') →
  calculate_streak day (HabitResponse.id response) db'
  = HabitResponse.current_streak response.
Proof.
  intros Hri. unfold create_habit, mbind, Handler_bind, add_habit. simpl.
  intros [= <- <-]. simpl. apply calculate_streak_not_today.
  intros (id & c & Hid & Hh & Hd). simpl in Hid.
  apply (fresh_habit_no_completion db day Hri). by exists id, c.
Qed.

Lemma create_habit_streak_consistent_witness :
  calculate_streak 100 2 (create_habit 100 (HabitCreate.mk "Read" "R") db_gap).2
  = 0.
Proof.
  apply (create_habit_streak_consistent 100 100 (HabitCreate.mk "Read" "R") db_gap
           _ (HabitResponse.mk 2 "Read" "R" 0 100)).
  - intros id c Hc. apply elem_of_map_to_list in Hc. vm_compute in Hc.
    repeat (apply elem_of_cons in Hc as [[= -> ->]|Hc]; [by exists habit_run|]).
    by apply elem_of_nil in Hc.
  - reflexivity.
Defined.

(** X11: in a session where every completion belongs to a stored habit,
    deleting a habit right after its creation, by the id that create_habit
    returned, gives back the session as it was. *)
Theorem create_delete_habit_round_trip (today : date) (habit : HabitCreate.t)
    (db db' : Session) (response : HabitResponse.t) :
  referential_integrity db →
  create_habit today habit db = (Return response, db') →
  delete_habit (HabitResponse.id response) db'
  = (Return "Habit deleted successfully", db).
Proof.
  intros Hri. unfold create_habit, mbind, Handler_bind, add_habit. simpl.
  intros [= <- <-]. simpl.
  unfold delete_habit, mbind, Handler_bind, first_by_id, query. simpl.
  rewrite lookup_insert_eq. simpl.
  rewrite delete_insert_id by apply next_id_fresh.
  rewrite map_filter_id; [by destruct db|].
  intros id c Hc. simpl. intros Hh.
  apply (fresh_habit_no_completion db (Completion.completed_date c) Hri).
  by exists id, c.
Qed.

Lemma create_delete_habit_round_trip_witness :
  delete_habit 2 (create_habit 100 (HabitCreate.mk "Read" "R") db_gap).2
  = (Return "Habit deleted successfully", db_gap).
Proof.
  apply (create_delete_habit_round_trip 100 (HabitCreate.mk "Read" "R") db_gap
           _ (HabitResponse.mk 2 "Read" "R" 0 100)).
  - intros id c Hc. apply elem_of_map_to_list in Hc. vm_compute in Hc.
    repeat (apply elem_of_cons in Hc as [[= -> ->]|Hc]; [by exists habit_run|]).
    by apply elem_of_nil in Hc.
  - reflexivity.
Defined.

(** Once delete_habit has succeeded for an id that fits in 64 bits, as the
    keys of a table do, the habit is gone for every endpoint: deleting or
    updating it again and recording a completion for it answer 404 and change
    nothing, and its streak is 0. *)
Lemma deleted_habit_not_found (habit_id : Z) (db db' : Session)
    (message : string) :
  int64 habit_id →
  delete_habit habit_id db = (Return message, db') →
  delete_habit habit_id db' = (Raise (HTTPException 404 "Habit not found"), db')
  ∧ (∀ today habit,
       update_habit today habit_id habit db'
       = (Raise (HTTPException 404 "Habit not found"), db'))
  ∧ (∀ d,
       create_completion (CompletionCreate.mk habit_id d) db'
       = (Raise (HTTPException 404 "Habit not found"), db'))
  ∧ (∀ today, calculate_streak today habit_id db' = 0).
Proof.
  intros H64. unfold delete_habit at 1. unfold mbind, Handler_bind, first_by_id, query.
  destruct (habits db !! habit_id) as [h|] eqn:Hh; [|by case_bool_decide].
  simpl. intros [= <- <-].
  set (db' := mkSession _ _).
  assert (Hgone : habits db' !! habit_id = None) by apply lookup_delete_eq.
  split_and!.
  - unfold delete_habit, mbind, Handler_bind. by rewrite first_by_id_None.
  - intros today habit.
    unfold update_habit, mbind, Handler_bind. by rewrite first_by_id_None.
  - intros d. by apply create_completion_not_found.
  - intros today. apply calculate_streak_not_today.
    intros (id & c & Hid & Hc & _). simpl in Hid.
    apply map_lookup_filter_Some in Hid as [_ Hne]. by apply Hne.
Qed.

Lemma deleted_habit_not_found_example :
  delete_habit 1 (delete_habit 1 db_run).2
  = (Raise (HTTPException 404 "Habit not found"), (delete_habit 1 db_run).2).
Proof.
  apply (deleted_habit_not_found 1 db_run _ "Habit deleted successfully");
    [unfold int64; lia | reflexivity].
Defined.

(** ** The listings *)

(** X13: get_habits changes nothing and lists every stored habit exactly
    once, with the columns of its row and the streak that calculate_streak
    gives it. *)
Theorem get_habits_lists_habits (today : date) (db : Session) :
  ∃ result,
    get_habits today db = (Return result, db)
    ∧ length result = size (habits db)
    ∧ NoDup (HabitResponse.id <$> result)
    ∧ ∀ response,
        response ∈ result
        ↔ ∃ habit,
            habits db !! HabitResponse.id response = Some habit
            ∧ response
              = HabitResponse.mk (HabitResponse.id response) (Habit.name habit)
                  (Habit.emoji habit)
                  (calculate_streak today (HabitResponse.id response) db)
                  (Habit.created_at habit).
Proof.
  eexists. split_and!.
  - reflexivity.
  - by rewrite length_fmap, length_map_to_list.
  - rewrite <- list_fmap_compose. apply NoDup_fst_map_to_list.
  - intros response. rewrite list_elem_of_fmap. split.
    + intros ([id habit] & -> & Hin). apply elem_of_map_to_list in Hin.
      simpl. by exists habit.
    + intros (habit & Hh & Hr). exists (HabitResponse.id response, habit).
      split; [done|]. by apply elem_of_map_to_list.
Qed.

(** X14: get_completions changes nothing and lists every stored completion
    exactly once, with its id, its habit and its date. *)
Theorem get_completions_lists_completions (db : Session) :
  ∃ result,
    get_completions db = (Return result, db)
    ∧ length result = size (completions db)
    ∧ NoDup (CompletionResponse.id <$> result)
    ∧ ∀ response,
        response ∈ result
        ↔ completions db !! CompletionResponse.id response
          = Some (Completion.mk (CompletionResponse.habit_id response)
                    (CompletionResponse.completed_date response)).
Proof.
  eexists. split_and!.
  - reflexivity.
  - by rewrite length_fmap, length_map_to_list.
  - rewrite <- list_fmap_compose. apply NoDup_fst_map_to_list.
  - intros response. rewrite list_elem_of_fmap. split.
    + intros ([id [h d]] & -> & Hin). by apply elem_of_map_to_list in Hin.
    + intros Hc. destruct response as [id h d]. simpl in Hc.
      exists (id, Completion.mk h d). split; [done|].
      by apply elem_of_map_to_list.
Qed.

(** ** Reading back what was written *)

Lemma elem_of_get_completions (db : Session) (id habit_id : Z) (d : date) :
  completions db !! id = Some (Completion.mk habit_id d) →
  ∃ result, get_completions db = (Return result, db)
            ∧ CompletionResponse.mk id habit_id d ∈ result.
Proof.
  intros Hc. eexists. split; [reflexivity|].
  apply list_elem_of_fmap. exists (id, Completion.mk habit_id d).
  split; [done|]. by apply elem_of_map_to_list.
Qed.

Lemma elem_of_get_habits (today : date) (db : Session) (id : Z) (habit : Habit.t) :
  habits db !! id = Some habit →
  ∃ result, get_habits today db = (Return result, db)
            ∧ HabitResponse.mk id (Habit.name habit) (Habit.emoji habit)
                (calculate_streak today id db) (Habit.created_at habit)
              ∈ result.
Proof.
  intros Hh. eexists. split; [reflexivity|].
  apply list_elem_of_fmap. exists (id, habit).
  split; [done|]. by apply elem_of_map_to_list.
Qed.

(** X15: the completion that create_completion returns is listed by
    get_completions on the session it leaves. *)
Theorem create_completion_then_listed (completion : CompletionCreate.t)
    (db db' : Session) (response : CompletionResponse.t) :
  create_completion completion db = (Return response, db') →
  ∃ result, get_completions db' = (Return result, db') ∧ response ∈ result.
Proof.
  unfold create_completion, mbind, Handler_bind, first_by_id, query.
  destruct (habits db !! CompletionCreate.habit_id completion) as [h|];
    [|by case_bool_decide].
  destruct (query_existing _ _ db) as [kc|]; [discriminate|].
  simpl. intros [= <- <-]. apply elem_of_get_completions.
  simpl. apply lookup_insert_eq.
Qed.

Lemma create_completion_then_listed_witness :
  ∃ result,
    get_completions (create_completion (CompletionCreate.mk 1 98) db_run).2
    = (Return result, (create_completion (CompletionCreate.mk 1 98) db_run).2)
    ∧ CompletionResponse.mk 5 1 98 ∈ result.
Proof.
  apply (create_completion_then_listed (CompletionCreate.mk 1 98) db_run).
  reflexivity.
Defined.

(** X16: the record that update_habit returns, streak included, is the one
    that get_habits lists for the habit on the same day. *)
Theorem update_habit_then_listed (today : date) (habit_id : Z)
    (habit : HabitUpdate.t) (db db' : Session) (response : HabitResponse.t) :
  update_habit today habit_id habit db = (Return response, db') →
  ∃ result, get_habits today db' = (Return result, db') ∧ response ∈ result.
Proof.
  unfold update_habit, mbind, Handler_bind, first_by_id, query.
  destruct (habits db !! habit_id) as [h|]; [|by case_bool_decide].
  simpl. intros [= <- <-].
  apply (elem_of_get_habits today _ habit_id
           (Habit.mk (HabitUpdate.name habit) (HabitUpdate.emoji habit)
                     (Habit.created_at h))).
  simpl. apply lookup_insert_eq.
Qed.

Lemma update_habit_then_listed_witness :
  ∃ result,
    get_habits 100 (update_habit 100 1 (HabitUpdate.mk "Walk" "W") db_run).2
    = (Return result, (update_habit 100 1 (HabitUpdate.mk "Walk" "W") db_run).2)
    ∧ HabitResponse.mk 1 "Walk" "W" 2 90 ∈ result.
Proof.
  apply (update_habit_then_listed 100 1 (HabitUpdate.mk "Walk" "W") db_run).
  reflexivity.
Defined.

(** X17: applying the same update a second time changes nothing more and
    gives the same answer. *)
Theorem update_habit_idempotent (today : date) (habit_id : Z)
    (habit : HabitUpdate.t) (db : Session) :
  update_habit today habit_id habit (update_habit today habit_id habit db).2
  = update_habit today habit_id habit db.
Proof.
  unfold update_habit, mbind, Handler_bind, first_by_id, query.
  destruct (habits db !! habit_id) as [h|] eqn:Hh; simpl.
  - rewrite lookup_insert_eq. simpl. by rewrite insert_insert_eq.
  - destruct (bool_decide (int64 habit_id)); simpl; by rewrite Hh.
Qed.

(** ** Invariants of reachable sessions *)

Lemma unique_dates_subset (db db' : Session) (habit_id : Z) :
  (∀ id c, completions db' !! id = Some c → completions db !! id = Some c) →
  unique_dates db habit_id → unique_dates db' habit_id.
Proof.
  intros Hsub Huniq i j ci cj Hi Hj. apply Huniq; by apply Hsub.
Qed.

Lemma delete_habit_unique_dates (habit_id : Z) (db : Session) (h : Z) :
  unique_dates db h → unique_dates (delete_habit habit_id db).2 h.
Proof.
  apply unique_dates_subset. intros id c.
  unfold delete_habit, mbind, Handler_bind, first_by_id, query.
  destruct (habits db !! habit_id); [|by case_bool_decide]. simpl.
  rewrite map_lookup_filter_Some. by intros [? _].
Qed.

Lemma delete_completion_unique_dates (completion_id : Z) (db : Session) (h : Z) :
  unique_dates db h → unique_dates (delete_completion completion_id db).2 h.
Proof.
  apply unique_dates_subset. intros id c.
  unfold delete_completion, mbind, Handler_bind, first_by_id, query.
  destruct (completions db !! completion_id); [|by case_bool_decide]. simpl.
  rewrite lookup_delete_Some. by intros [_ ?].
Qed.

Lemma update_habit_completions (today : date) (habit_id : Z)
    (habit : HabitUpdate.t) (db : Session) :
  completions (update_habit today habit_id habit db).2 = completions db.
Proof.
  unfold update_habit, mbind, Handler_bind, first_by_id, query.
  destruct (habits db !! habit_id); [done|by case_bool_decide].
Qed.

(** X18: whatever requests are served, starting from the empty database,
    every stored completion belongs to a stored habit and no habit has two
    completions on one date. *)
Theorem reachable_invariants (db : Session) :
  reachable db →
  referential_integrity db ∧ ∀ habit_id, unique_dates db habit_id.
Proof.
  induction 1 as [|today request db Hreach [Hri Huniq]].
  - split; [apply referential_integrity_empty|].
    intros h i j ci cj Hi. simpl in Hi. by rewrite lookup_empty in Hi.
  - destruct request as [|habit|habit_id habit|habit_id| |completion|completion_id];
      simpl serve.
    + done.
    + split; [by apply create_habit_integrity|done].
    + split; [by apply update_habit_integrity|].
      intros h. eapply unique_dates_subset; [|apply (Huniq h)].
      intros id c. by rewrite update_habit_completions.
    + split; [by apply delete_habit_integrity|].
      intros h. by apply delete_habit_unique_dates.
    + done.
    + split; [by apply create_completion_integrity|].
      by apply create_completion_unique_dates.
    + split; [by apply delete_completion_integrity|].
      intros h. by apply delete_completion_unique_dates.
Qed.

Lemma reachable_invariants_witness :
  referential_integrity
    (serve 100 (PostCompletion (CompletionCreate.mk 1 100))
       (serve 100 (PostHabit (HabitCreate.mk "Run" default_emoji)) empty_db))
  ∧ ∀ habit_id,
      unique_dates
        (serve 100 (PostCompletion (CompletionCreate.mk 1 100))
           (serve 100 (PostHabit (HabitCreate.mk "Run" default_emoji)) empty_db))
        habit_id.
Proof. apply reachable_invariants. repeat constructor. Defined.

(** ** The streak is the whole run *)

Lemma streak_loop_maximal (l : list Completion.t) (streak : Z) (cursor : date) :
  StronglySorted date_desc l →
  NoDup (Completion.completed_date <$> l) →
  Forall (λ c, Completion.completed_date c ≤ cursor) l →
  cursor - (streak_loop l streak cursor - streak)
  ∉ Completion.completed_date <$> l.
Proof.
  revert streak cursor.
  induction l as [|c l IH]; intros streak cursor Hsort Hnd Hle.
  - apply not_elem_of_nil.
  - apply StronglySorted_cons in Hsort as [Hc Hsort].
    rewrite fmap_cons in Hnd. apply NoDup_cons in Hnd as [Hfresh Hnd].
    apply Forall_cons in Hle as [Hcle Hle].
    rewrite Forall_forall in Hc.
    destruct (decide (Completion.completed_date c = cursor)) as [Heq|Hne].
    + simpl streak_loop. rewrite loop_branch_Counted by done.
      assert (Hrest : Forall (λ c', Completion.completed_date c' ≤ cursor - timedelta 1) l).
      { apply Forall_forall. intros c' Hc'.
        assert (Completion.completed_date c' ≠ Completion.completed_date c).
        { intros E. apply Hfresh. rewrite <- E. by apply list_elem_of_fmap_2. }
        specialize (Hc c' Hc'). unfold date_desc, timedelta in *. lia. }
      specialize (IH (streak + 1) (cursor - timedelta 1) Hsort Hnd Hrest).
      pose proof (streak_loop_sound l (streak + 1) (cursor - timedelta 1))
        as [Hb _].
      rewrite fmap_cons. apply not_elem_of_cons. split.
      * unfold timedelta in *. lia.
      * unfold timedelta in *.
        by replace (cursor - (streak_loop l (streak + 1) (cursor - 1) - streak))
          with (cursor - 1 - (streak_loop l (streak + 1) (cursor - 1) - (streak + 1)))
          by lia.
    + simpl streak_loop. rewrite loop_branch_Broke by done.
      replace (cursor - (streak - streak)) with cursor by lia.
      rewrite fmap_cons. apply not_elem_of_cons. split; [done|].
      intros (c' & -> & Hc')%list_elem_of_fmap.
      specialize (Hc c' Hc'). unfold date_desc in Hc. lia.
Qed.

(** X20: when the dates of the habit are distinct and none is after today,
    the streak stops only at a gap: the day just before the days it counts
    has no completion. *)
Theorem calculate_streak_maximal (today : date) (habit_id : Z) (db : Session) :
  unique_dates db habit_id →
  (∀ d, has_completion db habit_id d → d ≤ today) →
  ¬ has_completion db habit_id (today - calculate_streak today habit_id db).
Proof.
  intros Huniq Hmax.
  pose proof (query_completions_dates habit_id db) as Hperm.
  rewrite calculate_streak_loop, <- elem_of_completion_dates, <- Hperm.
  replace (today - streak_loop (query_completions habit_id db) 0 today)
    with (today - (streak_loop (query_completions habit_id db) 0 today - 0))
    by lia.
  apply streak_loop_maximal.
  - apply query_completions_sorted.
  - rewrite Hperm. by apply unique_dates_NoDup.
  - apply Forall_forall. intros c Hc. by apply Hmax, query_completions_has.
Qed.

Lemma calculate_streak_maximal_witness :
  ¬ has_completion db_run 1 (100 - calculate_streak 100 1 db_run).
Proof.
  apply (calculate_streak_maximal 100 1 db_run).
  - apply unique_dates_NoDup. apply (bool_decide_unpack _). vm_compute. exact I.
  - intros d Hd. apply elem_of_completion_dates in Hd. vm_compute in Hd.
    repeat (apply elem_of_cons in Hd as [->|Hd]; [lia|]).
    by apply elem_of_nil in Hd.
Defined.
